(** * backend/train/run.py: the federated-learning runner

    A shallow embedding of [FedAvgAndroidSave] (the strategy that saves
    aggregated weights), [fit_config], [server], [execute] and [run].

    Python effects are modelled by a state-and-exception monad over a
    [World]: the messages the connection will deliver and the trace of
    observable calls made so far (log records, replies sent, saves,
    server launches).  The calls that leave the file (the decoding of
    the wire format, numpy's addition, the save, the sending of a reply,
    the server launch) may raise. *)

From Stdlib Require Import ZArith QArith.
From stdpp Require Import gmap strings list pretty.

Local Open Scope Z_scope.

(** ** Python values and exceptions *)

(** The exceptions the file distinguishes.  [RuntimeError] stands for
    whatever an [except RuntimeError] clause matches (an instance of the
    class or of a subclass), [KeyboardInterrupt] for what an
    [except KeyboardInterrupt] clause matches, [OtherException] for an
    instance of any class that neither clause matches. *)
Inductive exn : Type :=
| RuntimeError (msg : string)
| KeyboardInterrupt
| OtherException (cls : string) (msg : string).

Definition is_RuntimeError (e : exn) : bool :=
  match e with RuntimeError _ => true | _ => false end.

Definition is_KeyboardInterrupt (e : exn) : bool :=
  match e with KeyboardInterrupt => true | _ => false end.

(** [str(err)] of an exception: its message. *)
Definition exn_str (e : exn) : string :=
  match e with
  | RuntimeError msg => msg
  | KeyboardInterrupt => ""
  | OtherException _ msg => msg
  end.

(** [flwr.common.Scalar]: the values of metrics and config dicts. *)
Inductive Scalar : Type :=
| SBool (b : bool)
| SBytes (bs : list Byte.byte)
| SFloat (q : Q)
| SInt (z : Z)
| SStr (s : string).

(** How a call ends: it returns a value, raises, or never comes back
    because it waits on a connection that delivers nothing more. *)
Inductive outcome (A : Type) : Type :=
| Return (a : A)
| Raise (e : exn)
| Blocked.
Arguments Return {A} a.
Arguments Raise {A} e.
Arguments Blocked {A}.

Definition returns {A} (o : outcome A) : bool :=
  match o with Return _ => true | _ => false end.

(** What numpy yields when it decodes a buffer or adds two arrays: the
    value, or a [ValueError] (a buffer whose size is no multiple of the
    element size, operands whose shapes do not fit). *)
Inductive result (A : Type) : Type :=
| Ok (a : A)
| ValueError (msg : string).
Arguments Ok {A} a.
Arguments ValueError {A} msg.

Global Instance result_ret : MRet result := λ A a, Ok a.

Global Instance result_bind : MBind result := λ A B f r,
  match r with
  | Ok a => f a
  | ValueError msg => ValueError msg
  end.

Global Instance result_fmap : FMap result := λ A B f r,
  match r with
  | Ok a => Ok (f a)
  | ValueError msg => ValueError msg
  end.

(** The exception object of a [ValueError]. *)
Definition exn_of_ValueError (msg : string) : exn :=
  OtherException "ValueError" msg.

(** ** [fit_config] *)

Definition fit_config (server_round : Z) : gmap string Scalar :=
  let config : gmap string Scalar :=
    <["batch_size" := SInt 32]> (<["local_epochs" := SInt 5]> ∅) in
  config.

Definition PORT : Z := 8080.

(** ** The effect monad *)

(** A computation over a world [W]: it ends with an [outcome] and leaves
    a world behind, also when it raises. *)
Definition M (W A : Type) : Type := W → outcome A * W.

Global Instance M_ret {W} : MRet (M W) := λ A a w, (Return a, w).

Global Instance M_bind {W} : MBind (M W) := λ A B f m w,
  match m w with
  | (Return a, w') => f a w'
  | (Raise e, w') => (Raise e, w')
  | (Blocked, w') => (Blocked, w')
  end.

Definition raise {W A} (e : exn) : M W A := λ w, (Raise e, w).

(** A numpy call inside a computation: its [ValueError] is raised. *)
Definition numpy {W A} (r : result A) : M W A := λ w,
  match r with
  | Ok a => (Return a, w)
  | ValueError msg => (Raise (exn_of_ValueError msg), w)
  end.

(** [try: body except <class> as err: handler(err)], where [catches]
    tells whether the raised exception is an instance of the class. *)
Definition try_except {W A} (body : M W A) (catches : exn → bool)
    (handler : exn → M W A) : M W A := λ w,
  match body w with
  | (Raise e, w') => if catches e then handler e w' else (Raise e, w')
  | r => r
  end.

(** ** The external collaborators

    Types and functions the file imports from numpy, the federated
    learning framework and [train.models]; their code is not part of
    this file, so they are taken as an interface. *)
Class Framework : Type := {
  (** [numpy.ndarray] *)
  NDArray : Type;
  (** [flwr.common.Parameters], the wire format *)
  Parameters : Type;
  ClientProxy : Type;
  (** [train.models.TFLiteModel] *)
  TFLiteModel : Type;
  (** the strategy's decoding and encoding of the wire format; the
      decoding raises on a tensor whose bytes are malformed *)
  parameters_to_ndarrays : Parameters → result (list NDArray);
  ndarrays_to_parameters : list NDArray → Parameters;
  (** [layer * num_examples], [np.add], [layer / num_examples_total];
      the addition raises on shapes that do not fit *)
  nd_mul : NDArray → Z → NDArray;
  nd_add : NDArray → NDArray → result NDArray;
  nd_div : NDArray → Z → NDArray;
  (** [str(model)], as an f-string formats it *)
  TFLiteModel_str : TFLiteModel → string;
}.

Section Runner.
Context `{FW : Framework}.

(** [flwr.common.FitRes]: what one client sends back. *)
Record FitRes : Type := {
  parameters : Parameters;
  num_examples : Z;
  metrics : gmap string Scalar;
}.

(** [train.models.ModelParams]: arrays bound to the model file they are
    written into. *)
Record ModelParams : Type := {
  params : list NDArray;
  tflite_model : TFLiteModel;
}.

(** The fields of the strategy object: the arguments [server] passes to
    the constructor, [accept_failures] of the base class, and the class
    attribute [model]. *)
Record FedAvgAndroidSave : Type := {
  fraction_fit : Q;
  fraction_evaluate : Q;
  min_fit_clients : Z;
  min_evaluate_clients : Z;
  min_available_clients : Z;
  evaluate_fn : option (list NDArray → option (Q * gmap string Scalar));
  on_fit_config_fn : option (Z → gmap string Scalar);
  accept_failures : bool;
  initial_parameters : option Parameters;
  model : option TFLiteModel;
}.

Record ServerConfig : Type := { num_rounds : Z }.

(** A message payload: any Python object; these are the shapes the
    dispatcher can tell apart or print. *)
Inductive PyObj : Type :=
| PyNone
| PyModel (m : TFLiteModel)
| PyStr (s : string)
| PyInt (z : Z).

Definition py_str (o : PyObj) : string :=
  match o with
  | PyNone => "None"
  | PyModel m => TFLiteModel_str m
  | PyStr s => s
  | PyInt z => pretty z
  end.

(** ** The world *)

Inductive log_level : Type := WARNING | ERROR.

(** The calls that leave the process or could be observed from outside,
    recorded when they are made.  Logging a record is taken to
    succeed. *)
Inductive event : Type :=
| EvLog (level : log_level) (text : string)
| EvSend (obj : string)
| EvModelParams (to_save : ModelParams)
| EvSave (to_save : ModelParams)
| EvStartServer (server_address : string) (config : ServerConfig)
    (strategy : FedAvgAndroidSave).

(** What one [kind, msg = conn.recv()] does: it delivers a pair, or the
    statement raises (an interrupt while waiting, a closed connection, an
    object that does not unpack into two). *)
Inductive recv_result : Type :=
| Received (kind : string) (msg : PyObj)
| RecvRaises (e : exn).

Record World : Type := {
  inbox : list recv_result;
  trace : list event;
}.

Definition emit (ev : event) : M World unit := λ w,
  (Return (), {| inbox := inbox w; trace := trace w ++ [ev] |}).

Definition logger_warning (text : string) : M World unit :=
  emit (EvLog WARNING text).
Definition logger_error (text : string) : M World unit :=
  emit (EvLog ERROR text).

(** The replies a trace records: the objects [conn.send] was called
    with. *)
Definition replies (tr : list event) : list string :=
  omap (λ ev, match ev with EvSend obj => Some obj | _ => None end) tr.

Definition conn_recv : M World (string * PyObj) := λ w,
  match inbox w with
  | [] => (Blocked, w)
  | Received kind msg :: rest =>
      (Return (kind, msg), {| inbox := rest; trace := trace w |})
  | RecvRaises e :: rest =>
      (Raise e, {| inbox := rest; trace := trace w |})
  end.

(** The environment: how [ModelParams.save], [conn.send] (given the
    replies sent before) and the framework's [start_server] end when
    called ([None]: the call returns). *)
Variable ModelParams_save : ModelParams → option exn.
Variable conn_send_result : list string → string → option exn.
Variable start_server_result :
  string → ServerConfig → FedAvgAndroidSave → option exn.

Definition end_of_call (r : option exn) : M World unit :=
  match r with
  | None => mret ()
  | Some e => raise e
  end.

(** [conn.send(obj)]: it raises when the peer is gone. *)
Definition conn_send (obj : string) : M World unit := λ w,
  (emit (EvSend obj);;
   end_of_call (conn_send_result (replies (trace w)) obj)) w.

(** [ModelParams(params=..., tflite_model=...)] *)
Definition new_ModelParams (ps : list NDArray) (m : TFLiteModel)
    : M World ModelParams :=
  let to_save := {| params := ps; tflite_model := m |} in
  emit (EvModelParams to_save);; mret to_save.

(** [to_save.save()] *)
Definition save (to_save : ModelParams) : M World unit :=
  emit (EvSave to_save);; end_of_call (ModelParams_save to_save).

Definition start_server (server_address : string) (config : ServerConfig)
    (strategy : FedAvgAndroidSave) : M World unit :=
  emit (EvStartServer server_address config strategy);;
  end_of_call (start_server_result server_address config strategy).

(** ** Weighted averaging *)

(** Python's truth value of a list. *)
Definition truthy {A} (l : list A) : bool :=
  match l with [] => false | _ => true end.

(** [functools.reduce(f, l)] for a non-empty [l], from the left; the
    first [f] that raises ends it. *)
Fixpoint reduce_from {A} (f : A → A → result A) (acc : A) (l : list A)
    : result A :=
  match l with
  | [] => Ok acc
  | y :: l' => acc' ← f acc y; reduce_from f acc' l'
  end.

Definition reduce {A} (f : A → A → result A) (l : list A)
    : option (result A) :=
  match l with
  | [] => None
  | x :: l' => Some (reduce_from f x l')
  end.

(** The entries at position [k] of every row, when every row has one. *)
Definition column {A} (k : nat) (rows : list (list A)) : option (list A) :=
  mapM (λ row, row !! k) rows.

Definition averaged_layer (num_examples_total : Z)
    (weighted_weights : list (list NDArray)) (k : nat)
    : option (result NDArray) :=
  layer_updates ← column k weighted_weights;
  match reduce nd_add layer_updates with
  | None => None
  | Some total => Some ((λ sum, nd_div sum num_examples_total) <$> total)
  end.

(** Modelled from the spec: the framework's function [aggregate]
    ([flwr.server.strategy.aggregate]), which the file imports and whose
    code is not part of it.  It is the "weighted average aggregation:
    combining multiple clients' parameters into one, weighting each by
    its example count", taken "per-tensor-position": the array at
    position [k] of the result is the sum over the clients of their
    array at [k] times their example count, divided by the total example
    count; positions that some client lacks are left out.  The positions
    are computed in order, and an addition that raises ends the call. *)
Definition aggregate (results : list (list NDArray * Z))
    : result (list NDArray) :=
  let num_examples_total := fold_left Z.add (results.*2) 0 in
  let weighted_weights : list (list NDArray) :=
    (λ '((weights, n) : list NDArray * Z),
       (λ layer, nd_mul layer n) <$> weights) <$> results in
  match weighted_weights with
  | [] => Ok []
  | first :: _ =>
      mapM id (omap (averaged_layer num_examples_total weighted_weights)
                    (seq 0 (length first)))
  end.

(** ** [FedAvgAndroidSave] *)

Definition save_params (self : FedAvgAndroidSave) (params : list NDArray)
    : M World unit :=
  match model self with
  | None =>
      (* Skip if no model corresponding to the parameters is specified. *)
      mret ()
  | Some self_model =>
      to_save ← new_ModelParams params self_model;
      try_except (save to_save) is_RuntimeError
        (λ err, logger_error (exn_str err))
  end.

(** The list comprehension of [aggregate_fit]: every client's decoded
    arrays with its example count, the clients taken in order; the first
    decoding that raises ends it. *)
Definition weights_results (results : list (ClientProxy * FitRes))
    : result (list (list NDArray * Z)) :=
  mapM (λ '((client, fit_res) : ClientProxy * FitRes),
          weights ← parameters_to_ndarrays (parameters fit_res);
          Ok (weights, num_examples fit_res))
       results.

(** Aggregate fit results using weighted average. *)
Definition aggregate_fit (self : FedAvgAndroidSave) (server_round : Z)
    (results : list (ClientProxy * FitRes))
    (failures : list ((ClientProxy * FitRes) + exn))
    : M World (option Parameters * gmap string Scalar) :=
  if negb (truthy results) then mret (None, ∅)
  (* Do not aggregate if there are failures and failures are not accepted *)
  else if negb (accept_failures self) && truthy failures then mret (None, ∅)
  else
    (* Convert results *)
    weights_results ← numpy (weights_results results);
    aggregated ← numpy (aggregate weights_results);
    save_params self aggregated;;
    mret (Some (ndarrays_to_parameters aggregated), ∅).

(** ** [server] *)

Definition set_model (strategy : FedAvgAndroidSave)
    (m : option TFLiteModel) : FedAvgAndroidSave :=
  {| fraction_fit := fraction_fit strategy;
     fraction_evaluate := fraction_evaluate strategy;
     min_fit_clients := min_fit_clients strategy;
     min_evaluate_clients := min_evaluate_clients strategy;
     min_available_clients := min_available_clients strategy;
     evaluate_fn := evaluate_fn strategy;
     on_fit_config_fn := on_fit_config_fn strategy;
     accept_failures := accept_failures strategy;
     initial_parameters := initial_parameters strategy;
     model := m |}.

(** The strategy as [server] constructs it.  [accept_failures] is not
    passed: it keeps the base class's default, and [model] starts as the
    class attribute [None]. *)
Definition new_strategy : FedAvgAndroidSave :=
  {| fraction_fit := 1;
     fraction_evaluate := 1;
     min_fit_clients := 2;
     min_evaluate_clients := 2;
     min_available_clients := 2;
     evaluate_fn := None;
     on_fit_config_fn := Some fit_config;
     accept_failures := true;
     initial_parameters := None;
     model := None |}.

Definition server (model : option TFLiteModel) : M World unit :=
  let strategy := new_strategy in
  let strategy := set_model strategy model in
  (* Start Flower server for 10 rounds of federated learning *)
  start_server ("0.0.0.0:" +:+ pretty PORT) {| num_rounds := 10 |} strategy.

(** ** [execute] and [run] *)

(** Execute one instruction received. *)
Definition execute : M World unit :=
  '(kind, msg) ← conn_recv;
  if decide (kind = "ping") then
    logger_warning ("Received `" +:+ py_str msg +:+ "`.");;
    conn_send "pong"
  else if decide (kind = "server") then
    logger_warning
      ("Launching server with arguments `" +:+ py_str msg +:+ "`.");;
    match msg with
    | PyModel m => server (Some m)
    | _ =>
        match msg with
        | PyNone => mret ()
        | _ =>
            logger_error
              ("Unknown argument `" +:+ py_str msg +:+
               "` for Flower server.")
        end;;
        server None
    end;;
    conn_send "done"
  else
    logger_error
      ("Unknown kind `" +:+ kind +:+ "` with message `" +:+ py_str msg +:+
       "`.");;
    conn_send "cannot understand".

(** One pass through the body of [while True]: [true] to go round again,
    [false] after [break]. *)
Definition run_iteration : M World bool :=
  try_except (execute;; mret true) is_KeyboardInterrupt (λ _, mret false).

(** The loop, unrolled at most [n] times. *)
Fixpoint run_loop (n : nat) : M World unit :=
  match n with
  | O => λ w, (Blocked, w)
  | S n' =>
      again ← run_iteration;
      if again : bool then run_loop n' else mret ()
  end.

(** Run a procedure that listens to instructions and executes them.
    Every pass that goes round again has taken a message from the inbox,
    so one pass more than there are messages unrolls the loop fully. *)
Definition while_True : M World unit :=
  λ w, run_loop (S (length (inbox w))) w.

Definition run : M World unit :=
  logger_warning "Runner started.";;
  while_True.

(** ** Observations on a trace, and the specification in its own words *)

(** The servers launched and the save calls made, as a trace records
    them. *)
Definition launches (tr : list event) : list (option TFLiteModel) :=
  omap (λ ev, match ev with
              | EvStartServer _ _ strategy => Some (model strategy)
              | _ => None
              end) tr.

Definition persistence_calls (tr : list event) : list ModelParams :=
  omap (λ ev, match ev with
              | EvModelParams to_save | EvSave to_save => Some to_save
              | _ => None
              end) tr.

(** The world after more events. *)
Definition after (w : World) (evs : list event) : World :=
  {| inbox := inbox w; trace := trace w ++ evs |}.

(** The example-count-weighted average at tensor position [k], in the
    words of the specification: the clients' arrays at [k], each times
    its client's example count, summed and divided by the total count.
    Undefined where some client has no array at [k]. *)
Definition weighted_average_at (clients : list (list NDArray * Z)) (k : nat)
    : option (result NDArray) :=
  arrays ← mapM (λ c : list NDArray * Z, c.1 !! k) clients;
  match reduce nd_add (zip_with nd_mul arrays (clients.*2)) with
  | None => None
  | Some weighted_sum =>
      Some ((λ sum, nd_div sum (fold_left Z.add (clients.*2) 0))
            <$> weighted_sum)
  end.

(** The loop of [run] in the words of the specification: passes follow
    one another; a pass that raises the interrupt ends the loop and [run]
    returns; a pass that raises anything else ends [run] with that
    exception; there is no other way out.  (A pass that waits for a
    message that never comes leaves [run] waiting.) *)
Inductive loops : World → outcome unit → World → Prop :=
| loops_again w w1 o w2 :
    execute w = (Return (), w1) → loops w1 o w2 → loops w o w2
| loops_break w w1 :
    execute w = (Raise KeyboardInterrupt, w1) → loops w (Return ()) w1
| loops_raise w e w1 :
    execute w = (Raise e, w1) → is_KeyboardInterrupt e = false →
    loops w (Raise e) w1
| loops_wait w w1 :
    execute w = (Blocked, w1) → loops w Blocked w1.

(** The save calls alone, without the constructions. *)
Definition saves (tr : list event) : list ModelParams :=
  omap (λ ev, match ev with EvSave to_save => Some to_save | _ => None end)
       tr.

(** What [aggregate_fit] reads of one entry of [results]: the
    parameters and the example count of the fit result. *)
Definition fit_input (result : ClientProxy * FitRes) : Parameters * Z :=
  (parameters result.2, num_examples result.2).

(** The branches of [execute] by kind: the reply a command is answered
    with once it is carried out, the model [isinstance(msg, TFLiteModel)]
    selects, and the launches a command asks for. *)
Definition reply_for (kind : string) : string :=
  if decide (kind = "ping") then "pong"
  else if decide (kind = "server") then "done"
  else "cannot understand".

Definition target_model (msg : PyObj) : option TFLiteModel :=
  match msg with PyModel m => Some m | _ => None end.

Definition launches_for (kind : string) (msg : PyObj)
    : list (option TFLiteModel) :=
  if decide (kind = "server") then [target_model msg] else [].

(** The launches among some events are all of the one shape [server]
    gives them, for the model of the message. *)
Definition launched_for (evs : list event) (msg : PyObj) : Prop :=
  ∀ a c s,
    EvStartServer a c s ∈ evs →
    a = "0.0.0.0:8080" ∧ c = {| num_rounds := 10 |}
    ∧ s = set_model new_strategy (target_model msg).

(** The messages among what the connection delivers: the entries that
    are a pair, not a raising receive. *)
Definition messages (delivered : list recv_result) : list (string * PyObj) :=
  omap (λ r, match r with
             | Received kind msg => Some (kind, msg)
             | RecvRaises _ => None
             end) delivered.

End Runner.

Arguments loops {FW} conn_send_result start_server_result w o w'.

(** ** A concrete framework

    Arrays of exact rationals (one number per array), the wire format
    the list of arrays itself, and models named by their file. *)
Module Example.

Definition q_mul (a : Q) (n : Z) : Q := Qred (a * inject_Z n).
Definition q_add (a b : Q) : result Q := Ok (Qred (a + b)).
Definition q_div (a : Q) (n : Z) : Q := Qred (a / inject_Z n).

#[export] Instance rationals : Framework := {|
  NDArray := Q;
  Parameters := list Q;
  ClientProxy := string;
  TFLiteModel := string;
  parameters_to_ndarrays := Ok;
  ndarrays_to_parameters := id;
  nd_mul := q_mul;
  nd_add := q_add;
  nd_div := q_div;
  TFLiteModel_str := id;
|}.

Definition fit_res (ps : list Q) (n : Z) : FitRes :=
  {| parameters := ps; num_examples := n; metrics := ∅ |}.

(** Two clients, two tensors each, 1 and 3 examples. *)
Definition two_results : list (ClientProxy * FitRes) :=
  [("a", fit_res [1; 2]%Q 1); ("b", fit_res [5; 10]%Q 3)].

Definition strategy_with (m : option TFLiteModel) (accept : bool)
    : FedAvgAndroidSave :=
  {| fraction_fit := 1; fraction_evaluate := 1;
     min_fit_clients := 2; min_evaluate_clients := 2;
     min_available_clients := 2;
     evaluate_fn := None; on_fit_config_fn := Some fit_config;
     accept_failures := accept; initial_parameters := None;
     model := m |}.

Definition quiet : World := {| inbox := []; trace := [] |}.

Definition model_file : TFLiteModel := "model.tflite".
Definition bad_shape : exn := RuntimeError "bad shape".
Definition value_error : exn := OtherException "ValueError" "bad shape".

(** Environments: every call returns; every save raises the given
    exception; every send, every server launch raises the given
    exception. *)
Definition save_ok : ModelParams → option exn := λ _, None.
Definition save_raises (e : exn) : ModelParams → option exn := λ _, Some e.
Definition send_ok : list string → string → option exn := λ _ _, None.
Definition send_raises (e : exn) : list string → string → option exn :=
  λ _ _, Some e.
Definition server_ok
    : string → ServerConfig → FedAvgAndroidSave → option exn :=
  λ _ _ _, None.
Definition server_raises (e : exn)
    : string → ServerConfig → FedAvgAndroidSave → option exn :=
  λ _ _ _, Some e.

(** The same fit results under other client names, one of them with
    metrics of its own. *)
Definition two_results_renamed : list (ClientProxy * FitRes) :=
  [("x", {| parameters := [1; 2]%Q; num_examples := 1;
            metrics := {[ "loss" := SInt 3 ]} |});
   ("y", fit_res [5; 10]%Q 3)].

(** A "server" command naming a model, and three commands followed by
    an interrupt. *)
Definition one_launch : World :=
  {| inbox := [Received "server" (PyModel model_file)]; trace := [] |}.

Definition three_commands : list (string * PyObj) :=
  [("ping", PyStr "hello"); ("server", PyNone); ("bogus", PyInt 42)].

End Example.

(** ** A framework whose calls can fail

    One-dimensional arrays.  A tensor on the wire is its numbers, or
    [None] for bytes that are no whole number of elements; two arrays
    add when they are equally long. *)
Module Shaped.

Definition decode (tensors : list (option (list Q)))
    : result (list (list Q)) :=
  mapM (λ tensor : option (list Q),
          match tensor with
          | Some a => Ok a
          | None => ValueError "buffer size must be a multiple of element size"
          end) tensors.

Definition add (a b : list Q) : result (list Q) :=
  if decide (length a = length b)
  then Ok (zip_with (λ x y, Qred (x + y)) a b)
  else ValueError "operands could not be broadcast together".

#[local] Instance arrays : Framework := {|
  NDArray := list Q;
  Parameters := list (option (list Q));
  ClientProxy := string;
  TFLiteModel := string;
  parameters_to_ndarrays := decode;
  ndarrays_to_parameters := fmap Some;
  nd_mul := λ a n, (λ x, Qred (x * inject_Z n)) <$> a;
  nd_add := add;
  nd_div := λ a n, (λ x, Qred (x / inject_Z n)) <$> a;
  TFLiteModel_str := id;
|}.

Definition fit_res (ps : list (option (list Q))) (n : Z) : @FitRes arrays :=
  {| parameters := ps; num_examples := n; metrics := ∅ |}.

(** Two clients with one tensor each: well formed and equally long; the
    second client's bytes malformed; the second client's tensor
    longer. *)
Definition fitting : list (@ClientProxy arrays * @FitRes arrays) :=
  [("a", fit_res [Some [1; 2]%Q] 1); ("b", fit_res [Some [5; 10]%Q] 3)].

Definition malformed : list (@ClientProxy arrays * @FitRes arrays) :=
  [("a", fit_res [Some [1; 2]%Q] 1); ("b", fit_res [None] 3)].

Definition mismatched : list (@ClientProxy arrays * @FitRes arrays) :=
  [("a", fit_res [Some [1; 2]%Q] 1); ("b", fit_res [Some [5; 10; 15]%Q] 3)].

Definition strategy : @FedAvgAndroidSave arrays :=
  {| fraction_fit := 1; fraction_evaluate := 1;
     min_fit_clients := 2; min_evaluate_clients := 2;
     min_available_clients := 2;
     evaluate_fn := None; on_fit_config_fn := Some fit_config;
     accept_failures := true; initial_parameters := None;
     model := Some "model.tflite" |}.

Definition quiet : @World arrays := {| inbox := []; trace := [] |}.

End Shaped.

(** * Properties *)

Section RunnerProperties.
Context `{FW : Framework}.
Variable ModelParams_save : ModelParams → option exn.
Variable conn_send_result : list string → string → option exn.
Variable start_server_result :
  string → ServerConfig → FedAvgAndroidSave → option exn.

(** ** Lists as conditions *)

Lemma truthy_false {A} (l : list A) : truthy l = false ↔ l = [].
Proof. destruct l; simpl; split; congruence. Qed.

Lemma truthy_true {A} (l : list A) : truthy l = true ↔ l ≠ [].
Proof. destruct l; simpl; split; congruence. Qed.

(** ** [save_params] *)

(** The three ways a save with a configured model ends. *)
Lemma save_params_with_model self m ps w :
  model self = Some m →
  let to_save := {| params := ps; tflite_model := m |} in
  save_params ModelParams_save self ps w =
    match ModelParams_save to_save with
    | None => (Return (), after w [EvModelParams to_save; EvSave to_save])
    | Some e =>
        if is_RuntimeError e
        then (Return (), after w [EvModelParams to_save; EvSave to_save;
                                  EvLog ERROR (exn_str e)])
        else (Raise e, after w [EvModelParams to_save; EvSave to_save])
    end.
Proof.
  intros Hm to_save. unfold save_params. rewrite Hm.
  unfold new_ModelParams, save, try_except, mbind, M_bind, emit, end_of_call,
    logger_error, emit, after, mret, M_ret, raise.
  cbn. fold to_save.
  destruct (ModelParams_save to_save) as [e|]; cbn.
  - destruct (is_RuntimeError e); cbn; rewrite <- ?app_assoc; reflexivity.
  - rewrite <- app_assoc. reflexivity.
Qed.

(** Past the two guards, [aggregate_fit] is the decoding and the
    averaging, which may raise, then the save, then the encoding of the
    average. *)
Lemma aggregate_fit_proceeds self server_round results failures w :
  results ≠ [] → failures = [] ∨ accept_failures self = true →
  aggregate_fit ModelParams_save self server_round results failures w =
    match weights_results results ≫= aggregate with
    | Ok aggregated =>
        match save_params ModelParams_save self aggregated w with
        | (Return _, w') =>
            (Return (Some (ndarrays_to_parameters aggregated), ∅), w')
        | (Raise e, w') => (Raise e, w')
        | (Blocked, w') => (Blocked, w')
        end
    | ValueError msg => (Raise (exn_of_ValueError msg), w)
    end.
Proof.
  intros Hres Hfail. unfold aggregate_fit.
  apply truthy_true in Hres. rewrite Hres. cbn [negb].
  replace (negb (accept_failures self) && truthy failures) with false.
  2:{ destruct Hfail as [-> | ->]; [|reflexivity].
      cbn. by rewrite andb_false_r. }
  unfold mbind at 1, M_bind at 1, numpy at 1.
  destruct (weights_results results) as [clients|msg]; [|done].
  cbn [mbind result_bind].
  unfold mbind at 1, M_bind at 1, numpy at 1.
  destruct (aggregate clients) as [aggregated|msg]; [|done].
  reflexivity.
Qed.

(** C8: with no target model, [save_params] returns at once and leaves
    the world as it found it, whatever the arrays: nothing is raised, no
    [ModelParams] is constructed and no call leaves the process. *)
Theorem save_params_without_model self ps w :
  model self = None →
  save_params ModelParams_save self ps w = (Return (), w).
Proof. intros Hm. unfold save_params. by rewrite Hm. Qed.

(** C2: when [results] is empty, or there are failures and the strategy
    does not accept them, [aggregate_fit] returns [(None, {})] and the
    world is untouched; in particular the trace holds no new
    [ModelParams] and no new save. *)
Theorem aggregate_fit_declines self server_round results failures w :
  results = [] ∨ (failures ≠ [] ∧ accept_failures self = false) →
  aggregate_fit ModelParams_save self server_round results failures w
  = (Return (None, ∅), w)
  ∧ persistence_calls
      (trace (aggregate_fit ModelParams_save self server_round results
                failures w).2)
    = persistence_calls (trace w).
Proof.
  intros H.
  assert (aggregate_fit ModelParams_save self server_round results failures w
          = (Return (None, ∅), w)) as ->; [|done].
  unfold aggregate_fit.
  destruct H as [-> | [Hf Ha]]; [reflexivity|].
  apply truthy_true in Hf. rewrite Hf, Ha.
  by destruct (truthy results).
Qed.

(** C3: when the save raises a runtime error, [save_params] returns
    normally after logging the error, and [aggregate_fit] returns the
    encoded average with empty metrics, the same value as with a save
    that succeeds. *)
Theorem save_RuntimeError_is_logged self m ps msg w :
  model self = Some m →
  let to_save := {| params := ps; tflite_model := m |} in
  ModelParams_save to_save = Some (RuntimeError msg) →
  let saved := after w [EvModelParams to_save; EvSave to_save;
                        EvLog ERROR msg] in
  save_params ModelParams_save self ps w = (Return (), saved)
  ∧ ∀ server_round results failures,
      results ≠ [] → failures = [] ∨ accept_failures self = true →
      weights_results results ≫= aggregate = Ok ps →
      aggregate_fit ModelParams_save self server_round results failures w
        = (Return (Some (ndarrays_to_parameters ps), ∅), saved)
      ∧ (aggregate_fit (λ _, None) self server_round results
           failures w).1
        = Return (Some (ndarrays_to_parameters ps), ∅).
Proof.
  intros Hm to_save Hsave saved.
  assert (save_params ModelParams_save self ps w = (Return (), saved)) as Hsp.
  { rewrite (save_params_with_model self m ps w Hm). fold to_save.
    by rewrite Hsave. }
  split; [exact Hsp|].
  intros server_round results failures Hres Hfail Hagg. split.
  - rewrite aggregate_fit_proceeds by done. by rewrite Hagg, Hsp.
  - unfold aggregate_fit.
    apply truthy_true in Hres. rewrite Hres. cbn [negb].
    replace (negb (accept_failures self) && truthy failures) with false.
    2:{ destruct Hfail as [-> | ->]; [|reflexivity].
        cbn. by rewrite andb_false_r. }
    unfold mbind at 1, M_bind at 1, numpy at 1.
    destruct (weights_results results) as [clients|?]; [|done].
    cbn [mbind result_bind] in Hagg.
    unfold mbind at 1, M_bind at 1, numpy at 1. rewrite Hagg.
    unfold save_params. rewrite Hm. reflexivity.
Qed.

(** C9: an exception of the save that is not a runtime error is not
    intercepted: [save_params] raises it (nothing is logged), and so does
    the [aggregate_fit] that called it. *)
Theorem save_other_exception_propagates self m ps e w :
  model self = Some m →
  let to_save := {| params := ps; tflite_model := m |} in
  ModelParams_save to_save = Some e →
  is_RuntimeError e = false →
  let raised := after w [EvModelParams to_save; EvSave to_save] in
  save_params ModelParams_save self ps w = (Raise e, raised)
  ∧ ∀ server_round results failures,
      results ≠ [] → failures = [] ∨ accept_failures self = true →
      weights_results results ≫= aggregate = Ok ps →
      aggregate_fit ModelParams_save self server_round results failures w
      = (Raise e, raised).
Proof.
  intros Hm to_save Hsave He raised.
  assert (save_params ModelParams_save self ps w = (Raise e, raised)) as Hsp.
  { rewrite (save_params_with_model self m ps w Hm). fold to_save.
    by rewrite Hsave, He. }
  split; [exact Hsp|].
  intros server_round results failures Hres Hfail Hagg.
  rewrite aggregate_fit_proceeds by done. by rewrite Hagg, Hsp.
Qed.

(** C10: the round number plays no part in [aggregate_fit]: two calls
    that differ only in it end the same way in the same world. *)
Theorem aggregate_fit_ignores_round self r1 r2 results failures w :
  aggregate_fit ModelParams_save self r1 results failures w
  = aggregate_fit ModelParams_save self r2 results failures w.
Proof. reflexivity. Qed.

(** C7: in every round [fit_config] returns the mapping with exactly
    the keys [batch_size], bound to 32, and [local_epochs], bound to 5. *)
Theorem fit_config_constant (r : Z) :
  fit_config r = {[ "batch_size" := SInt 32; "local_epochs" := SInt 5 ]}
  ∧ fit_config r !! "batch_size" = Some (SInt 32)
  ∧ fit_config r !! "local_epochs" = Some (SInt 5)
  ∧ dom (fit_config r) = {[ "batch_size"; "local_epochs" ]}.
Proof.
  unfold fit_config. repeat split.
Qed.

(** ** The weighted average *)

(** Mapping a partial function over [0, n) keeps every value when the
    function is defined on an initial segment. *)
Lemma omap_seq_prefix {B} (f : nat → option B) (n : nat) :
  (∀ j k, j ≤ k → is_Some (f k) → is_Some (f j))%nat →
  ∀ k, omap f (seq 0 n) !! k = if decide (k < n)%nat then f k else None.
Proof.
  intros Hprefix. induction n as [|n IH]; intros k.
  { by destruct (decide (k < 0)%nat); [lia|]. }
  rewrite seq_S, omap_app. cbn [omap list_omap Nat.add].
  set (L := omap f (seq 0 n)) in *.
  assert (length L ≤ n)%nat as Hle.
  { apply lookup_ge_None. rewrite IH.
    by destruct (decide (n < n)%nat); [lia|]. }
  destruct (f n) as [y|] eqn:Hfn.
  - assert (length L = n) as Hlen.
    { destruct n as [|n']; [lia|].
      assert (is_Some (L !! n')) as HS.
      { rewrite IH. destruct (decide (n' < S n')%nat); [|lia].
        apply (Hprefix n' (S n')); [lia|]. by rewrite Hfn. }
      apply lookup_lt_is_Some in HS. lia. }
    destruct (decide (k < S n)%nat) as [Hk|Hk].
    + destruct (decide (k = n)) as [->|Hne].
      * rewrite lookup_app_r by lia. by rewrite Hlen, Nat.sub_diag.
      * rewrite lookup_app_l by lia. rewrite IH.
        by destruct (decide (k < n)%nat); [|lia].
    + apply lookup_ge_None. rewrite length_app. cbn. lia.
  - rewrite app_nil_r, IH.
    destruct (decide (k < n)%nat), (decide (k < S n)%nat); try done; try lia.
    by assert (k = n) as -> by lia.
Qed.

(** The column of the scaled rows is the scaled column. *)
Lemma column_scaled (clients : list (list NDArray * Z)) (k : nat) :
  column k ((λ '((weights, n) : list NDArray * Z),
               (λ layer, nd_mul layer n) <$> weights) <$> clients)
  = (λ arrays, zip_with nd_mul arrays (clients.*2))
    <$> mapM (λ c : list NDArray * Z, c.1 !! k) clients.
Proof.
  unfold column. induction clients as [|[weights n] clients IH]; [done|].
  cbn. rewrite list_lookup_fmap.
  destruct (weights !! k) as [a|]; cbn; [|done].
  cbn in IH. rewrite IH.
  by destruct (mapM _ clients).
Qed.

Lemma averaged_layer_scaled (clients : list (list NDArray * Z)) (k : nat) :
  averaged_layer (fold_left Z.add (clients.*2) 0)
    ((λ '((weights, n) : list NDArray * Z),
        (λ layer, nd_mul layer n) <$> weights) <$> clients) k
  = weighted_average_at clients k.
Proof.
  unfold averaged_layer, weighted_average_at. rewrite column_scaled.
  by destruct (mapM _ clients).
Qed.

(** The average at [k] is computed exactly when there is a client and
    every client has an array at [k]. *)
Lemma weighted_average_at_is_Some (clients : list (list NDArray * Z))
    (k : nat) :
  is_Some (weighted_average_at clients k)
  ↔ clients ≠ [] ∧ Forall (λ c, k < length c.1)%nat clients.
Proof.
  assert (is_Some (mapM (λ c : list NDArray * Z, c.1 !! k) clients)
          ↔ Forall (λ c, k < length c.1)%nat clients) as Hcolumn.
  { rewrite mapM_is_Some. apply Forall_proper; [|done].
    intros c. cbn. apply lookup_lt_is_Some. }
  unfold weighted_average_at. split.
  - intros [a Ha].
    destruct (mapM _ clients) as [arrays|] eqn:Hcol; cbn in Ha; [|done].
    split; [|by apply Hcolumn].
    intros ->. cbn in Hcol. by injection Hcol as <-.
  - intros [Hne Hall]. apply Hcolumn in Hall as [arrays Hcol].
    rewrite Hcol. cbn.
    destruct clients as [|[weights n] clients]; [done|].
    cbn in Hcol. destruct (weights !! k); cbn in Hcol; [|done].
    destruct (mapM _ clients); cbn in Hcol; [|done].
    injection Hcol as <-. cbn. eauto.
Qed.

(** The aggregation function computes, position by position and in
    order, the weighted average of the specification. *)
Lemma aggregate_positions (clients : list (list NDArray * Z)) :
  ∃ layers : list (result NDArray),
    aggregate clients = mapM id layers
    ∧ ∀ k, layers !! k = weighted_average_at clients k.
Proof.
  destruct clients as [|[weights n] rest].
  { exists []. split; [done|]. by intros k. }
  set (clients := (weights, n) :: rest).
  assert (∀ i, averaged_layer (fold_left Z.add (clients.*2) 0)
                 ((λ '((weights, n) : list NDArray * Z),
                     (λ layer, nd_mul layer n) <$> weights) <$> clients) i
               = weighted_average_at clients i) as Hlayer
    by (intros; apply averaged_layer_scaled).
  eexists. split; [reflexivity|]. intros k.
  change ((λ '((weights, n) : list NDArray * Z),
             (λ layer, nd_mul layer n) <$> weights) <$> (weights, n) :: rest)
    with ((λ '((weights, n) : list NDArray * Z),
             (λ layer, nd_mul layer n) <$> weights) <$> clients).
  fold clients.
  rewrite omap_seq_prefix.
  - rewrite length_fmap, Hlayer.
    destruct (decide (k < length weights)%nat) as [Hk|Hk]; [done|].
    symmetry. apply eq_None_not_Some.
    rewrite weighted_average_at_is_Some. intros [_ Hall].
    apply Forall_cons_1 in Hall as [Hlt _]. cbn in Hlt. lia.
  - intros j i Hji. rewrite !Hlayer, !weighted_average_at_is_Some.
    intros [Hne Hall]. split; [done|].
    eapply Forall_impl; [exact Hall|]. cbn. intros c Hc. lia.
Qed.

Lemma mapM_id_Ok {A} (layers : list (result A)) (l : list A) :
  mapM id layers = Ok l ↔ layers = Ok <$> l.
Proof.
  revert l. induction layers as [|[a|msg] layers IH]; intros l; cbn.
  - split; [by intros [= <-]|]. by destruct l.
  - destruct (mapM id layers) as [l'|msg] eqn:Hl'; cbn.
    + split.
      * intros [= <-]. cbn. f_equal. by apply IH.
      * destruct l as [|a' l'']; [done|]. intros [= -> Hl]. f_equal. f_equal.
        apply IH in Hl. congruence.
    + split; [done|]. destruct l as [|a' l'']; [done|]. intros [= -> Hl].
      apply IH in Hl. congruence.
  - split; [done|]. by destruct l.
Qed.

(** [aggregate] returns exactly the list that is the weighted average at
    every position. *)
Lemma aggregate_Ok (clients : list (list NDArray * Z))
    (averaged : list NDArray) :
  aggregate clients = Ok averaged
  ↔ ∀ k, Ok <$> averaged !! k = weighted_average_at clients k.
Proof.
  destruct (aggregate_positions clients) as (layers & -> & Hlayers).
  rewrite mapM_id_Ok. split.
  - intros -> k. by rewrite <- Hlayers, list_lookup_fmap.
  - intros Hall. apply list_eq. intros k.
    by rewrite Hlayers, list_lookup_fmap, Hall.
Qed.

Lemma weights_results_Ok (results : list (ClientProxy * FitRes))
    (decoded : list (list NDArray)) :
  Forall2 (λ result arrays,
             parameters_to_ndarrays (parameters result.2) = Ok arrays)
          results decoded →
  weights_results results
  = Ok (zip decoded ((λ result, num_examples result.2) <$> results)).
Proof.
  unfold weights_results.
  induction 1 as [|[client fit_res] arrays results decoded Hd _ IH]; [done|].
  cbn in *. rewrite Hd. cbn. rewrite IH. reflexivity.
Qed.

(** C1, amended: for non-empty [results], with no failures or with
    failures accepted, when every client's parameters decode, the
    arrays at every position can be added, and the save (if a model is
    configured) returns or raises a runtime error, [aggregate_fit]
    returns a parameter set that is not [None]: the encoding of the
    arrays [averaged] that are at every position the
    example-count-weighted average of the clients' decoded arrays; the
    metrics mapping is empty. *)
Theorem aggregate_fit_weighted_average self server_round results failures w
    (decoded : list (list NDArray)) (averaged : list NDArray) :
  results ≠ [] →
  failures = [] ∨ accept_failures self = true →
  Forall2 (λ result arrays,
             parameters_to_ndarrays (parameters result.2) = Ok arrays)
          results decoded →
  (∀ k, Ok <$> averaged !! k
        = weighted_average_at
            (zip decoded ((λ result, num_examples result.2) <$> results)) k) →
  (∀ m e,
     model self = Some m →
     ModelParams_save {| params := averaged; tflite_model := m |} = Some e →
     is_RuntimeError e = true) →
  (aggregate_fit ModelParams_save self server_round results failures w).1
  = Return (Some (ndarrays_to_parameters averaged), ∅).
Proof.
  intros Hres Hfail Hdecoded Haveraged Hsave.
  rewrite aggregate_fit_proceeds by done.
  rewrite (weights_results_Ok results decoded Hdecoded).
  cbn [mbind result_bind].
  apply aggregate_Ok in Haveraged. rewrite Haveraged.
  destruct (model self) as [m|] eqn:Hm.
  - rewrite (save_params_with_model self m _ w Hm).
    destruct (ModelParams_save _) as [e|] eqn:He; [|done].
    by rewrite (Hsave m e eq_refl He).
  - unfold save_params. by rewrite Hm.
Qed.

(** ** [execute] *)

Lemma server_address_eq : "0.0.0.0:" +:+ pretty PORT = "0.0.0.0:8080".
Proof. reflexivity. Qed.

Lemma replies_app (tr1 tr2 : list event) :
  replies (tr1 ++ tr2) = replies tr1 ++ replies tr2.
Proof. apply omap_app. Qed.

Lemma launches_app (tr1 tr2 : list event) :
  launches (tr1 ++ tr2) = launches tr1 ++ launches tr2.
Proof. apply omap_app. Qed.

(** What [conn.send] does to the world. *)
Lemma conn_send_eq (obj : string) w :
  conn_send conn_send_result obj w
  = (match conn_send_result (replies (trace w)) obj with
     | None => Return ()
     | Some e => Raise e
     end, after w [EvSend obj]).
Proof.
  unfold conn_send, emit, mbind, M_bind, end_of_call, after, mret, M_ret,
    raise.
  by destruct conn_send_result.
Qed.

(** What [server] does to the world. *)
Lemma server_eq model w :
  let strategy := set_model new_strategy model in
  server start_server_result model w =
    let w' := after w [EvStartServer "0.0.0.0:8080" {| num_rounds := 10 |}
                         strategy] in
    match start_server_result "0.0.0.0:8080" {| num_rounds := 10 |}
            strategy with
    | None => (Return (), w')
    | Some e => (Raise e, w')
    end.
Proof.
  intros strategy. unfold server, start_server. rewrite server_address_eq.
  fold strategy. unfold mbind, M_bind, emit, end_of_call, after. cbn.
  by destruct start_server_result.
Qed.

(** What [execute] does with a "server" message. *)
Lemma execute_launch (msg : PyObj) (rest : list recv_result)
    (tr : list event) :
  let strategy :=
    set_model new_strategy
      match msg with PyModel m => Some m | _ => None end in
  let unknown_argument : list event :=
    match msg with
    | PyModel _ | PyNone => []
    | _ => [EvLog ERROR
              ("Unknown argument `" +:+ py_str msg +:+ "` for Flower server.")]
    end in
  let launched : list event :=
    tr ++ [EvLog WARNING
             ("Launching server with arguments `" +:+ py_str msg +:+ "`.")]
       ++ unknown_argument
       ++ [EvStartServer "0.0.0.0:8080" {| num_rounds := 10 |} strategy] in
  execute conn_send_result start_server_result
    {| inbox := Received "server" msg :: rest; trace := tr |}
  = match start_server_result "0.0.0.0:8080" {| num_rounds := 10 |}
            strategy with
    | None =>
        (match conn_send_result (replies tr) "done" with
         | None => Return ()
         | Some e => Raise e
         end,
         {| inbox := rest; trace := launched ++ [EvSend "done"] |})
    | Some e => (Raise e, {| inbox := rest; trace := launched |})
    end.
Proof.
  intros strategy unknown_argument launched.
  unfold execute, conn_recv, mbind, M_bind at 1. cbn [inbox trace].
  destruct (decide ("server" = "ping")) as [?|_]; [done|].
  destruct (decide ("server" = "server")) as [_|?]; [|done].
  unfold logger_warning, logger_error, emit, mbind, M_bind, mret, M_ret.
  cbn [inbox trace].
  subst launched unknown_argument strategy.
  destruct msg; rewrite server_eq; unfold after; cbn [inbox trace];
    destruct start_server_result; cbn [inbox trace];
    rewrite ?conn_send_eq; unfold after; cbn [inbox trace];
    rewrite ?replies_app; cbn [replies omap list_omap app];
    rewrite ?app_nil_r, <- ?app_assoc; reflexivity.
Qed.

(** C5: a "server" message makes [execute] launch the server once, on
    port 8080 for 10 rounds, with the strategy of [server] whose model
    is the message when the message is a model and [None] otherwise; an
    error is logged exactly when the message is neither a model nor
    [None]; when the launch returns, [execute] sends the one reply
    "done" after it and ends as that send ends, and when the launch
    raises, [execute] raises the same without a reply. *)
Theorem execute_server (msg : PyObj) (rest : list recv_result)
    (tr : list event) :
  let target := match msg with PyModel m => Some m | _ => None end in
  let strategy :=
    {| fraction_fit := 1;
       fraction_evaluate := 1;
       min_fit_clients := 2;
       min_evaluate_clients := 2;
       min_available_clients := 2;
       evaluate_fn := None;
       on_fit_config_fn := Some fit_config;
       accept_failures := true;
       initial_parameters := None;
       model := target |} in
  let launch :=
    EvStartServer "0.0.0.0:8080" {| num_rounds := 10 |} strategy in
  let before : list event :=
    tr ++ [EvLog WARNING
             ("Launching server with arguments `" +:+ py_str msg +:+ "`.")]
       ++ match msg with
          | PyModel _ | PyNone => []
          | _ => [EvLog ERROR
                    ("Unknown argument `" +:+ py_str msg +:+
                     "` for Flower server.")]
          end in
  let r := execute conn_send_result start_server_result
             {| inbox := Received "server" msg :: rest; trace := tr |} in
  inbox r.2 = rest
  ∧ model strategy = target
  ∧ match start_server_result "0.0.0.0:8080" {| num_rounds := 10 |}
            strategy with
    | None =>
        trace r.2 = before ++ [launch; EvSend "done"]
        ∧ r.1 = match conn_send_result (replies tr) "done" with
                | None => Return ()
                | Some e => Raise e
                end
    | Some e => r.1 = Raise e ∧ trace r.2 = before ++ [launch]
    end.
Proof.
  intros target strategy launch before r. subst r before launch.
  rewrite execute_launch. fold target.
  change (set_model new_strategy target) with strategy.
  split; [by destruct start_server_result|]. split; [done|].
  destruct start_server_result; cbn [fst snd trace]; split; try done;
    destruct msg; cbn [app]; by rewrite <- ?app_assoc.
Qed.

Lemma execute_ping (msg : PyObj) (rest : list recv_result)
    (tr : list event) :
  execute conn_send_result start_server_result
    {| inbox := Received "ping" msg :: rest; trace := tr |}
  = (match conn_send_result (replies tr) "pong" with
     | None => Return ()
     | Some e => Raise e
     end,
     {| inbox := rest;
        trace := tr ++ [EvLog WARNING ("Received `" +:+ py_str msg +:+ "`.");
                        EvSend "pong"] |}).
Proof.
  unfold execute, conn_recv, mbind, M_bind at 1. cbn [inbox trace].
  destruct (decide ("ping" = "ping")) as [_|?]; [|done].
  unfold logger_warning, emit, mbind, M_bind. cbn [inbox trace].
  rewrite conn_send_eq. unfold after. cbn [inbox trace].
  rewrite replies_app. cbn [replies omap list_omap].
  by rewrite app_nil_r, <- app_assoc.
Qed.

Lemma execute_unknown (kind : string) (msg : PyObj)
    (rest : list recv_result) (tr : list event) :
  kind ≠ "ping" → kind ≠ "server" →
  execute conn_send_result start_server_result
    {| inbox := Received kind msg :: rest; trace := tr |}
  = (match conn_send_result (replies tr) "cannot understand" with
     | None => Return ()
     | Some e => Raise e
     end,
     {| inbox := rest;
        trace := tr ++ [EvLog ERROR ("Unknown kind `" +:+ kind +:+
                                     "` with message `" +:+ py_str msg +:+
                                     "`.");
                        EvSend "cannot understand"] |}).
Proof.
  intros Hping Hserver.
  unfold execute, conn_recv, mbind, M_bind at 1. cbn [inbox trace].
  destruct (decide (kind = "ping")) as [?|_]; [done|].
  destruct (decide (kind = "server")) as [?|_]; [done|].
  unfold logger_error, emit, mbind, M_bind. cbn [inbox trace].
  rewrite conn_send_eq. unfold after. cbn [inbox trace].
  rewrite replies_app. cbn [replies omap list_omap].
  by rewrite app_nil_r, <- app_assoc.
Qed.

Lemma execute_recv_raises (e : exn) (rest : list recv_result)
    (tr : list event) :
  execute conn_send_result start_server_result
    {| inbox := RecvRaises e :: rest; trace := tr |}
  = (Raise e, {| inbox := rest; trace := tr |}).
Proof. reflexivity. Qed.

Lemma execute_waits (tr : list event) :
  execute conn_send_result start_server_result {| inbox := []; trace := tr |}
  = (Blocked, {| inbox := []; trace := tr |}).
Proof. reflexivity. Qed.

(** C4, amended: a message whose kind is not "server", and a "server"
    message whose launch returns, makes [execute], when the sending of
    the reply succeeds, return normally having sent exactly one reply:
    "pong" for "ping", "done" for "server", "cannot understand" for
    every other kind; a server is launched for kind "server" only. *)
Theorem execute_replies_once (kind : string) (msg : PyObj)
    (rest : list recv_result) (tr : list event) :
  (kind = "server" →
   start_server_result "0.0.0.0:8080" {| num_rounds := 10 |}
     (set_model new_strategy
        match msg with PyModel m => Some m | _ => None end) = None) →
  conn_send_result (replies tr)
    (if decide (kind = "ping") then "pong"
     else if decide (kind = "server") then "done"
     else "cannot understand") = None →
  let r := execute conn_send_result start_server_result
             {| inbox := Received kind msg :: rest; trace := tr |} in
  r.1 = Return ()
  ∧ inbox r.2 = rest
  ∧ replies (trace r.2)
    = replies tr ++ [if decide (kind = "ping") then "pong"
                     else if decide (kind = "server") then "done"
                     else "cannot understand"]
  ∧ launches (trace r.2)
    = launches tr ++ (if decide (kind = "server")
                      then [match msg with PyModel m => Some m | _ => None end]
                      else []).
Proof.
  intros Hlaunch Hsend r. subst r.
  destruct (decide (kind = "ping")) as [->|Hping].
  { rewrite execute_ping, Hsend. cbn [fst snd inbox trace].
    rewrite replies_app, launches_app.
    repeat split; cbn; by rewrite ?app_nil_r. }
  destruct (decide (kind = "server")) as [->|Hserver].
  { rewrite execute_launch, Hlaunch, Hsend by done.
    cbn [fst snd inbox trace].
    rewrite !replies_app, !launches_app.
    repeat split; destruct msg; cbn; by rewrite ?app_nil_r. }
  rewrite execute_unknown, Hsend by done. cbn [fst snd inbox trace].
  rewrite replies_app, launches_app.
  repeat split; cbn; by rewrite ?app_nil_r.
Qed.

(** ** [run] *)

(** A pass either finds no message and waits, or takes exactly the
    first message. *)
Lemma execute_takes_one w :
  match inbox w with
  | [] => execute conn_send_result start_server_result w = (Blocked, w)
  | _ :: rest =>
      inbox (execute conn_send_result start_server_result w).2 = rest
      ∧ (execute conn_send_result start_server_result w).1 ≠ Blocked
  end.
Proof.
  destruct w as [[|[kind msg|e] rest] tr]; cbn [inbox]; [done| |done].
  destruct (decide (kind = "ping")) as [->|Hping].
  { rewrite execute_ping. by destruct conn_send_result. }
  destruct (decide (kind = "server")) as [->|Hserver].
  { rewrite execute_launch.
    by destruct start_server_result; [|destruct conn_send_result]. }
  rewrite execute_unknown by done. by destruct conn_send_result.
Qed.

(** The loop satisfies the equation of [while True: try ... except
    KeyboardInterrupt: break]: the bound on the unrolling is never
    reached. *)
Lemma while_True_unfold w :
  while_True conn_send_result start_server_result w =
    match execute conn_send_result start_server_result w with
    | (Return _, w1) => while_True conn_send_result start_server_result w1
    | (Raise e, w1) =>
        if is_KeyboardInterrupt e then (Return (), w1) else (Raise e, w1)
    | (Blocked, w1) => (Blocked, w1)
    end.
Proof.
  unfold while_True at 1. cbn [run_loop].
  unfold mbind at 1, M_bind at 1, run_iteration, try_except.
  unfold mbind at 1, M_bind at 1.
  pose proof (execute_takes_one w) as Hone.
  destruct (execute conn_send_result start_server_result w)
    as [[[]|e|] w1] eqn:Hexec;
    cbn [fst snd] in *.
  - destruct (inbox w) as [|item rest] eqn:Hin; [done|].
    destruct Hone as [<- _]. reflexivity.
  - by destruct (is_KeyboardInterrupt e).
  - reflexivity.
Qed.

(** The loop function and the loop relation agree. *)
Lemma while_True_loops w o w' :
  while_True conn_send_result start_server_result w = (o, w')
  ↔ loops conn_send_result start_server_result w o w'.
Proof.
  split.
  - remember (length (inbox w)) as n eqn:Hn.
    revert w Hn. induction (lt_wf n) as [n _ IH]. intros w Hn.
    rewrite while_True_unfold.
    pose proof (execute_takes_one w) as Hone.
    destruct (execute conn_send_result start_server_result w)
      as [[[]|e|] w1] eqn:Hexec;
      cbn [fst snd] in *.
    + intros Hrun. eapply loops_again; [exact Hexec|].
      destruct (inbox w) as [|item rest] eqn:Hin; [done|].
      destruct Hone as [Hrest _].
      eapply (IH (length (inbox w1))); [|reflexivity|exact Hrun].
      subst n rest. cbn. lia.
    + destruct (is_KeyboardInterrupt e) eqn:He; intros [= <- <-].
      * destruct e; try done. by apply loops_break.
      * by apply loops_raise.
    + intros [= <- <-]. by apply loops_wait.
  - induction 1 as [w w1 o w2 Hexec _ IH|w w1 Hexec|w e w1 Hexec He
                   |w w1 Hexec];
      rewrite while_True_unfold, Hexec; [done|done| |done].
    by rewrite He.
Qed.

(** C6: [run] logs its start and then loops over [execute]: after a
    pass that returns comes the next pass; a pass that raises the
    interrupt ends the loop and [run] returns normally; a pass that
    raises anything else makes [run] raise it; [run] ends in no other
    way (a run that ends is a finite chain of returning passes closed by
    a raising one). *)
Theorem run_exits_by_exception_only w :
  let started := after w [EvLog WARNING "Runner started."] in
  let loop := while_True conn_send_result start_server_result in
  run conn_send_result start_server_result w = loop started
  ∧ (∀ w0,
       loop w0 = match execute conn_send_result start_server_result w0 with
                 | (Return _, w1) => loop w1
                 | (Raise e, w1) =>
                     if is_KeyboardInterrupt e then (Return (), w1)
                     else (Raise e, w1)
                 | (Blocked, w1) => (Blocked, w1)
                 end)
  ∧ (∀ o w',
       run conn_send_result start_server_result w = (o, w')
       ↔ loops conn_send_result start_server_result started o w').
Proof.
  intros started loop.
  assert (run conn_send_result start_server_result w = loop started)
    as Hrun by reflexivity.
  split; [exact Hrun|]. split; [apply while_True_unfold|].
  intros o w'. rewrite Hrun. apply while_True_loops.
Qed.

(** * Further properties *)

(** ** The strategy *)

Lemma aggregate_fit_guarded self server_round results failures w :
  results = [] ∨ (failures ≠ [] ∧ accept_failures self = false) →
  aggregate_fit ModelParams_save self server_round results failures w
  = (Return (None, ∅), w).
Proof.
  unfold aggregate_fit.
  intros [-> | [Hf Ha]]; [reflexivity|].
  apply truthy_true in Hf. rewrite Hf, Ha.
  by destruct (truthy results).
Qed.

(** The two guards are decided. *)
Lemma guards_decide self (results : list (ClientProxy * FitRes))
    (failures : list ((ClientProxy * FitRes) + exn)) :
  (results = [] ∨ (failures ≠ [] ∧ accept_failures self = false))
  ∨ (results ≠ [] ∧ (failures = [] ∨ accept_failures self = true)).
Proof.
  destruct results; [by left; left|].
  destruct failures; [by right; split; [|left]|].
  destruct (accept_failures self); [by right; split; [|right]|].
  by left; right.
Qed.

(** X1: [aggregate_fit] returns [None] for the parameters exactly when
    one of its two guards applies; past them it never does. *)
Theorem aggregate_fit_None_iff self server_round results failures w :
  (∃ metrics,
     (aggregate_fit ModelParams_save self server_round results failures w).1
     = Return (None, metrics))
  ↔ results = [] ∨ (failures ≠ [] ∧ accept_failures self = false).
Proof.
  split.
  - intros [metrics Hret].
    destruct (guards_decide self results failures) as [?|[Hres Hfail]];
      [done|].
    rewrite aggregate_fit_proceeds in Hret by done.
    destruct (weights_results results ≫= aggregate) as [aggregated|?];
      [|done].
    by destruct (save_params _ _ _ _) as [[[]|?|] ?].
  - intros Hguard. exists ∅. by rewrite aggregate_fit_guarded.
Qed.

Lemma saves_app (tr1 tr2 : list event) :
  saves (tr1 ++ tr2) = saves tr1 ++ saves tr2.
Proof. apply omap_app. Qed.

(** X2: with a model configured, [aggregate_fit] calls the save at most
    once, for the configured model; and whenever it returns parameters,
    it has called the save, and the parameters are the encoding of the
    very arrays it handed to the save, with empty metrics. *)
Theorem aggregate_fit_saves_what_it_returns self m server_round results
    failures w :
  results ≠ [] → failures = [] ∨ accept_failures self = true →
  model self = Some m →
  let r := aggregate_fit ModelParams_save self server_round results
             failures w in
  ∃ calls,
    saves (trace r.2) = saves (trace w) ++ calls
    ∧ (calls = [] ∨ ∃ to_save, calls = [to_save] ∧ tflite_model to_save = m)
    ∧ ∀ p metrics,
        r.1 = Return (p, metrics) →
        ∃ to_save,
          calls = [to_save]
          ∧ p = Some (ndarrays_to_parameters (params to_save))
          ∧ metrics = ∅.
Proof.
  intros Hres Hfail Hm r. subst r.
  rewrite aggregate_fit_proceeds by done.
  destruct (weights_results results ≫= aggregate) as [aggregated|msg].
  2:{ exists []. cbn [fst snd]. rewrite app_nil_r.
      split_and!; [done|by left|done]. }
  rewrite (save_params_with_model self m _ w Hm).
  set (to_save := {| params := aggregated; tflite_model := m |}).
  exists [to_save].
  destruct (ModelParams_save to_save) as [e|]; [destruct (is_RuntimeError e)|];
    cbn [fst snd after trace]; rewrite saves_app; cbn;
    (split; [done|]); (split; [right; by exists to_save|]);
    intros p metrics [= <- <-]; by exists to_save.
Qed.

(** X3: whatever the save does, [save_params] and [aggregate_fit] end
    by returning or by raising an exception that is not a runtime
    error: they never raise a runtime error and never wait on the
    connection. *)
Theorem aggregate_fit_never_raises_RuntimeError self server_round results
    failures ps w :
  match (save_params ModelParams_save self ps w).1 with
  | Return _ => True
  | Raise e => is_RuntimeError e = false
  | Blocked => False
  end
  ∧ match (aggregate_fit ModelParams_save self server_round results
             failures w).1 with
    | Return _ => True
    | Raise e => is_RuntimeError e = false
    | Blocked => False
    end.
Proof.
  assert (∀ ps,
            match (save_params ModelParams_save self ps w).1 with
            | Return _ => True
            | Raise e => is_RuntimeError e = false
            | Blocked => False
            end) as Hsave.
  { intros ps'. destruct (model self) as [m|] eqn:Hm.
    - rewrite (save_params_with_model self m ps' w Hm).
      destruct (ModelParams_save _) as [e|]; [|done].
      by destruct (is_RuntimeError e) eqn:He.
    - unfold save_params. by rewrite Hm. }
  split; [apply Hsave|].
  destruct (guards_decide self results failures) as [Hguard|[Hres Hfail]].
  - by rewrite aggregate_fit_guarded.
  - rewrite aggregate_fit_proceeds by done.
    destruct (weights_results results ≫= aggregate) as [aggregated|msg];
      [|done].
    specialize (Hsave aggregated).
    by destruct (save_params _ _ _ _) as [[[]|?|] ?].
Qed.

Lemma weights_results_fit_input (results : list (ClientProxy * FitRes)) :
  weights_results results
  = mapM (λ i : Parameters * Z,
            weights ← parameters_to_ndarrays i.1; Ok (weights, i.2))
         (fit_input <$> results).
Proof.
  unfold weights_results.
  induction results as [|[client fit_res] results IH]; [done|].
  cbn. by rewrite IH.
Qed.

(** X4: [aggregate_fit] reads of [results] only the parameters and the
    example count of each fit result, and of [failures] only whether
    there are any: the clients, the results' own metrics and the
    failures themselves play no part in how it ends. *)
Theorem aggregate_fit_reads_only self server_round results results'
    failures failures' w :
  fit_input <$> results = fit_input <$> results' →
  (failures = [] ↔ failures' = []) →
  aggregate_fit ModelParams_save self server_round results failures w
  = aggregate_fit ModelParams_save self server_round results' failures' w.
Proof.
  intros Hres Hfail. unfold aggregate_fit.
  rewrite !weights_results_fit_input, Hres.
  assert (truthy results = truthy results') as ->.
  { destruct results, results'; done. }
  assert (truthy failures = truthy failures') as ->.
  { destruct failures, failures'; try done.
    - by destruct Hfail as [Hfail _]; specialize (Hfail eq_refl).
    - by destruct Hfail as [_ Hfail]; specialize (Hfail eq_refl). }
  reflexivity.
Qed.

(** X5: [aggregate_fit] leaves the connection alone: it reads no
    message, sends no reply and launches no server, and it only adds to
    the trace. *)
Theorem aggregate_fit_leaves_connection self server_round results failures
    w :
  let r := aggregate_fit ModelParams_save self server_round results
             failures w in
  inbox r.2 = inbox w
  ∧ trace w `prefix_of` trace r.2
  ∧ replies (trace r.2) = replies (trace w)
  ∧ launches (trace r.2) = launches (trace w).
Proof.
  intros r. subst r.
  destruct (guards_decide self results failures) as [Hguard|[Hres Hfail]].
  { rewrite aggregate_fit_guarded by done. by repeat split. }
  rewrite aggregate_fit_proceeds by done.
  destruct (weights_results results ≫= aggregate) as [aggregated|msg];
    [|by repeat split].
  destruct (model self) as [m|] eqn:Hm.
  - rewrite (save_params_with_model self m _ w Hm).
    destruct (ModelParams_save _) as [e|]; [destruct (is_RuntimeError e)|];
      cbn [fst snd after trace inbox]; rewrite replies_app, launches_app;
      cbn; rewrite !app_nil_r; repeat split; by apply prefix_app_r.
  - unfold save_params. rewrite Hm. by repeat split.
Qed.

Lemma mapM_ValueError {A B} (f : A → result B) (l : list A) :
  Exists (λ x, ∃ msg, f x = ValueError msg) l →
  ∃ msg, mapM f l = ValueError msg.
Proof.
  induction 1 as [x l [msg Hx]|x l _ [msg IH]]; cbn.
  - rewrite Hx. by exists msg.
  - destruct (f x) as [y|msg']; cbn; [|by exists msg'].
    rewrite IH. by exists msg.
Qed.

(** X12: past the guards, when the parameters of some client do not
    decode, or they all decode and the arrays at some position cannot be
    added, [aggregate_fit] raises a [ValueError] and the world is as it
    was: nothing has been saved, logged or returned. *)
Theorem aggregate_fit_raises_before_saving self server_round results
    failures w (decoded : list (list NDArray)) :
  results ≠ [] →
  failures = [] ∨ accept_failures self = true →
  Exists (λ result,
            ∃ msg, parameters_to_ndarrays (parameters result.2)
                   = ValueError msg) results
  ∨ (Forall2 (λ result arrays,
                parameters_to_ndarrays (parameters result.2) = Ok arrays)
             results decoded
     ∧ ∃ k msg,
         weighted_average_at
           (zip decoded ((λ result, num_examples result.2) <$> results)) k
         = Some (ValueError msg)) →
  ∃ msg,
    aggregate_fit ModelParams_save self server_round results failures w
    = (Raise (OtherException "ValueError" msg), w).
Proof.
  intros Hres Hfail Hraises.
  rewrite aggregate_fit_proceeds by done.
  destruct Hraises as [Hdecode|[Hdecoded (k & msg & Hk)]].
  - rewrite weights_results_fit_input.
    destruct (mapM_ValueError
                (λ i : Parameters * Z,
                   weights ← parameters_to_ndarrays i.1; Ok (weights, i.2))
                (fit_input <$> results)) as [msg ->]; [|by exists msg].
    apply Exists_fmap. eapply Exists_impl; [exact Hdecode|].
    intros [client fit_res] [msg Hmsg]. exists msg. cbn in *.
    by rewrite Hmsg.
  - rewrite (weights_results_Ok results decoded Hdecoded).
    cbn [mbind result_bind].
    destruct (aggregate_positions
                (zip decoded ((λ result, num_examples result.2) <$> results)))
      as (layers & -> & Hlayers).
    destruct (mapM_ValueError id layers) as [msg' ->]; [|by exists msg'].
    apply Exists_exists. exists (ValueError msg). split; [|by exists msg].
    apply list_elem_of_lookup. exists k. by rewrite Hlayers.
Qed.

(** ** The dispatcher *)

Ltac members H :=
  repeat (apply elem_of_cons in H as [H|H]; [try discriminate|]);
  try (by apply elem_of_nil in H).

(** X6: [server] makes one call, to the framework's [start_server], on
    all interfaces at port 8080 for 10 rounds, with a strategy that
    carries the model it was given, asks for 2 clients and the full
    fraction in every phase, evaluates nothing centrally and configures
    every round with batch size 32 and 5 local epochs; it ends as that
    call ends, reads no message and sends no reply. *)
Theorem server_launches_once (target : option TFLiteModel) w :
  let r := server start_server_result target w in
  ∃ strategy,
    trace r.2
    = trace w ++ [EvStartServer "0.0.0.0:8080" {| num_rounds := 10 |}
                    strategy]
    ∧ inbox r.2 = inbox w
    ∧ r.1 = match start_server_result "0.0.0.0:8080" {| num_rounds := 10 |}
                    strategy with
            | None => Return ()
            | Some e => Raise e
            end
    ∧ model strategy = target
    ∧ (min_fit_clients strategy, min_evaluate_clients strategy,
       min_available_clients strategy) = (2, 2, 2)
    ∧ (fraction_fit strategy, fraction_evaluate strategy) = (1%Q, 1%Q)
    ∧ evaluate_fn strategy = None
    ∧ initial_parameters strategy = None
    ∧ ∃ config,
        on_fit_config_fn strategy = Some config
        ∧ ∀ round k,
            config round !! k
            = if decide (k = "batch_size") then Some (SInt 32)
              else if decide (k = "local_epochs") then Some (SInt 5)
              else None.
Proof.
  intros r. subst r. rewrite server_eq.
  exists (set_model new_strategy target). cbv zeta.
  destruct start_server_result; cbn [fst snd after trace inbox];
    (split_and!; [done..|]);
  exists fit_config; (split; [done|]); intros round k; unfold fit_config;
    (destruct (decide (k = "batch_size")) as [->|Hb]; [done|]);
    rewrite lookup_insert_ne by done;
    (destruct (decide (k = "local_epochs")) as [->|He]; [done|]);
    by rewrite lookup_insert_ne.
Qed.

(** One pass, by the way it ends. *)
Lemma execute_step w :
  match execute conn_send_result start_server_result w with
  | (Return _, w1) =>
      ∃ kind msg evs,
        inbox w = Received kind msg :: inbox w1
        ∧ trace w1 = trace w ++ evs
        ∧ replies evs = [reply_for kind]
        ∧ launches evs = launches_for kind msg
        ∧ launched_for evs msg
  | (Raise e, w1) =>
      (inbox w = RecvRaises e :: inbox w1 ∧ trace w1 = trace w)
      ∨ (∃ msg evs,
           inbox w = Received "server" msg :: inbox w1
           ∧ start_server_result "0.0.0.0:8080" {| num_rounds := 10 |}
               (set_model new_strategy (target_model msg)) = Some e
           ∧ trace w1 = trace w ++ evs
           ∧ replies evs = []
           ∧ launches evs = [target_model msg]
           ∧ launched_for evs msg)
      ∨ (∃ kind msg evs,
           inbox w = Received kind msg :: inbox w1
           ∧ conn_send_result (replies (trace w)) (reply_for kind) = Some e
           ∧ trace w1 = trace w ++ evs
           ∧ replies evs = [reply_for kind]
           ∧ launches evs = launches_for kind msg
           ∧ launched_for evs msg)
  | (Blocked, w1) => w1 = w ∧ inbox w = []
  end.
Proof.
  destruct w as [[|[kind msg|e] rest] tr]; [done| |by left].
  destruct (decide (kind = "ping")) as [->|Hping].
  { rewrite execute_ping. cbn [trace].
    destruct (conn_send_result (replies tr) "pong") as [e|] eqn:Hsend.
    - right. right. eexists "ping", msg, _.
      split_and!; try done. intros a c s H. members H.
    - eexists "ping", msg, _.
      split_and!; try done. intros a c s H. members H. }
  destruct (decide (kind = "server")) as [->|Hserver].
  { rewrite execute_launch.
    change (match msg with PyModel m => Some m | _ => None end)
      with (target_model msg).
    destruct (start_server_result _ _ _) as [e|] eqn:Hlaunch.
    - right. left. eexists msg, _. cbn [inbox trace].
      split_and!; try done; try (by destruct msg).
      intros a c s H. destruct msg; cbn in H; members H;
        by injection H as -> -> ->.
    - cbn [trace].
      destruct (conn_send_result (replies tr) "done") as [e|] eqn:Hsend.
      + right. right. eexists "server", msg, _. cbn [inbox trace].
        rewrite <- !app_assoc.
        split_and!; try done; try (by destruct msg).
        intros a c s H. destruct msg; cbn in H; members H;
          by injection H as -> -> ->.
      + eexists "server", msg, _. cbn [inbox trace].
        rewrite <- !app_assoc.
        split_and!; try done; try (by destruct msg).
        intros a c s H. destruct msg; cbn in H; members H;
          by injection H as -> -> ->. }
  rewrite execute_unknown by done. cbn [trace].
  assert (reply_for kind = "cannot understand") as Hreply.
  { unfold reply_for.
    destruct (decide (kind = "ping")) as [?|_]; [done|].
    by destruct (decide (kind = "server")) as [?|_]. }
  assert (launches_for kind msg = []) as Hnone.
  { unfold launches_for. by destruct (decide (kind = "server")). }
  destruct (conn_send_result (replies tr) "cannot understand") as [e|]
    eqn:Hsend.
  - right. right. eexists kind, msg, _. rewrite Hreply, Hnone.
    split_and!; try done. intros a c s H. members H.
  - eexists kind, msg, _. rewrite Hreply, Hnone.
    split_and!; try done. intros a c s H. members H.
Qed.


(** ** The loop *)

Lemma messages_app (d1 d2 : list recv_result) :
  messages (d1 ++ d2) = messages d1 ++ messages d2.
Proof. apply omap_app. Qed.

(** Along the loop, the replies are the replies to the messages read,
    in order; only the last message read can be without a reply. *)
Lemma loops_replies w o w' :
  loops conn_send_result start_server_result w o w' →
  ∃ taken answered unanswered,
    inbox w = taken ++ inbox w'
    ∧ messages taken = answered ++ unanswered
    ∧ (length unanswered ≤ 1)%nat
    ∧ replies (trace w')
      = replies (trace w) ++ ((λ c, reply_for c.1) <$> answered)
    ∧ (o = Blocked → unanswered = [] ∧ inbox w' = []).
Proof.
  induction 1 as [w w1 o w2 Hexec _ IH|w w1 Hexec|w e w1 Hexec He
                 |w w1 Hexec];
    pose proof (execute_step w) as Hstep; rewrite Hexec in Hstep.
  - destruct Hstep as (kind & msg & evs & Hin & Htr & Hrep & _).
    destruct IH as (taken & answered & unanswered & Hin1 & Hmsgs & Hlen
                    & Hreplies & Hblocked).
    exists (Received kind msg :: taken), ((kind, msg) :: answered),
      unanswered.
    split_and!; [| |done| |done].
    + by rewrite Hin, Hin1.
    + cbn. by rewrite <- Hmsgs.
    + rewrite Hreplies, Htr, replies_app, Hrep, <- app_assoc. done.
  - destruct Hstep
      as [[Hin Htr]
         |[(msg & evs & Hin & _ & Htr & Hrep & _)
          |(kind & msg & evs & Hin & _ & Htr & Hrep & _)]].
    + exists [RecvRaises KeyboardInterrupt], [], [].
      rewrite Htr. split_and!; cbn; rewrite ?app_nil_r; try done; lia.
    + exists [Received "server" msg], [], [("server", msg)].
      rewrite Htr, replies_app, Hrep.
      split_and!; cbn; rewrite ?app_nil_r; try done; lia.
    + exists [Received kind msg], [(kind, msg)], [].
      rewrite Htr, replies_app, Hrep.
      split_and!; cbn; rewrite ?app_nil_r; try done; lia.
  - destruct Hstep
      as [[Hin Htr]
         |[(msg & evs & Hin & _ & Htr & Hrep & _)
          |(kind & msg & evs & Hin & _ & Htr & Hrep & _)]].
    + exists [RecvRaises e], [], [].
      rewrite Htr. split_and!; cbn; rewrite ?app_nil_r; try done; lia.
    + exists [Received "server" msg], [], [("server", msg)].
      rewrite Htr, replies_app, Hrep.
      split_and!; cbn; rewrite ?app_nil_r; try done; lia.
    + exists [Received kind msg], [(kind, msg)], [].
      rewrite Htr, replies_app, Hrep.
      split_and!; cbn; rewrite ?app_nil_r; try done; lia.
  - destruct Hstep as [-> Hin]. exists [], [], [].
    split_and!; cbn; rewrite ?app_nil_r; try done; lia.
Qed.

Lemma run_loops w :
  loops conn_send_result start_server_result
    (after w [EvLog WARNING "Runner started."])
    (run conn_send_result start_server_result w).1
    (run conn_send_result start_server_result w).2.
Proof.
  apply while_True_loops.
  change (run conn_send_result start_server_result w)
    with (while_True conn_send_result start_server_result
            (after w [EvLog WARNING "Runner started."])).
  by destruct (while_True _ _ _).
Qed.

(** X9: the replies [run] sends are the replies to the messages it has
    read, one each and in the order read; at most one message, the last
    one read, can be left without a reply, and none is when [run] is
    left waiting, which happens only when the connection has delivered
    everything. *)
Theorem run_reply_accounting w :
  let r := run conn_send_result start_server_result w in
  ∃ taken answered unanswered,
    inbox w = taken ++ inbox r.2
    ∧ messages taken = answered ++ unanswered
    ∧ (length unanswered ≤ 1)%nat
    ∧ replies (trace r.2)
      = replies (trace w)
        ++ ((λ c, if decide (c.1 = "ping") then "pong"
                  else if decide (c.1 = "server") then "done"
                  else "cannot understand") <$> answered)
    ∧ (r.1 = Blocked → unanswered = [] ∧ inbox r.2 = []).
Proof.
  intros r. subst r.
  destruct (loops_replies _ _ _ (run_loops w))
    as (taken & answered & unanswered & Hin & Hmsgs & Hlen & Hreplies
        & Hblocked).
  exists taken, answered, unanswered. split_and!; try done.
  rewrite Hreplies. unfold after. cbn [trace]. rewrite replies_app. cbn.
  by rewrite app_nil_r.
Qed.

(** With launches that return and sends that succeed, the loop works
    through a run of delivered commands and goes on with what follows
    them. *)
Lemma while_True_commands (cmds : list (string * PyObj))
    (rest : list recv_result) (tr : list event) :
  (∀ a c s, start_server_result a c s = None) →
  (∀ sent obj, conn_send_result sent obj = None) →
  ∃ tr',
    while_True conn_send_result start_server_result
      {| inbox := ((λ c, Received c.1 c.2) <$> cmds) ++ rest; trace := tr |}
    = while_True conn_send_result start_server_result
        {| inbox := rest; trace := tr' |}
    ∧ replies tr' = replies tr ++ ((λ c, reply_for c.1) <$> cmds)
    ∧ launches tr'
      = launches tr ++ concat ((λ c, launches_for c.1 c.2) <$> cmds).
Proof.
  intros Hlaunch Hsend. revert tr.
  induction cmds as [|[kind msg] cmds IH]; intros tr.
  { exists tr. cbn. by rewrite !app_nil_r. }
  rewrite while_True_unfold.
  pose proof (execute_step
                {| inbox := ((λ c, Received c.1 c.2) <$> (kind, msg) :: cmds)
                            ++ rest;
                   trace := tr |}) as Hstep.
  destruct (execute _ _ _) as [[[]|e|] w1].
  - destruct Hstep as (kind' & msg' & evs & Hin & Htr & Hrep & Hl & _).
    cbn in Hin, Htr. injection Hin as <- <- Hin. destruct w1 as [in1 tr1].
    cbn in Hin, Htr. subst in1 tr1.
    destruct (IH (tr ++ evs)) as (tr' & Hrun & Hreplies & Hlaunches).
    exists tr'. split; [exact Hrun|].
    rewrite Hreplies, Hlaunches, replies_app, launches_app, Hrep, Hl.
    cbn. by rewrite <- !app_assoc.
  - destruct Hstep
      as [[Hin _]
         |[(msg' & evs & _ & Hraises & _)
          |(kind' & msg' & evs & _ & Hraises & _)]]; [done| |].
    + by rewrite Hlaunch in Hraises.
    + by rewrite Hsend in Hraises.
  - by destruct Hstep as [_ Hin].
Qed.

(** X10: when launches return and sends succeed, [run] carries out the
    commands in the order the connection delivers them and answers each
    with its reply, launching a server for the "server" commands alone;
    after the last command it waits, or, when the receiving statement
    raises, it leaves the later messages unread and returns (on the
    interrupt) or raises that exception. *)
Theorem run_answers_in_order (cmds : list (string * PyObj))
    (stop : option (exn * list recv_result)) (tr : list event) :
  (∀ a c s, start_server_result a c s = None) →
  (∀ sent obj, conn_send_result sent obj = None) →
  let delivered :=
    ((λ c, Received c.1 c.2) <$> cmds)
    ++ match stop with
       | None => []
       | Some (e, later) => RecvRaises e :: later
       end in
  let r := run conn_send_result start_server_result
             {| inbox := delivered; trace := tr |} in
  r.1 = match stop with
        | None => Blocked
        | Some (e, _) =>
            if is_KeyboardInterrupt e then Return () else Raise e
        end
  ∧ inbox r.2 = match stop with None => [] | Some (_, later) => later end
  ∧ replies (trace r.2)
    = replies tr
      ++ ((λ c, if decide (c.1 = "ping") then "pong"
                else if decide (c.1 = "server") then "done"
                else "cannot understand") <$> cmds)
  ∧ launches (trace r.2)
    = launches tr
      ++ concat ((λ c, if decide (c.1 = "server")
                       then [match c.2 with
                             | PyModel m => Some m
                             | _ => None
                             end]
                       else []) <$> cmds).
Proof.
  intros Hlaunch Hsend delivered r. subst r delivered.
  change (run conn_send_result start_server_result ?w)
    with (while_True conn_send_result start_server_result
            (after w [EvLog WARNING "Runner started."])).
  unfold after. cbn [inbox trace].
  destruct (while_True_commands cmds
              match stop with
              | None => []
              | Some (e, later) => RecvRaises e :: later
              end
              (tr ++ [EvLog WARNING "Runner started."]) Hlaunch Hsend)
    as (tr' & -> & Hreplies & Hlaunches).
  rewrite replies_app in Hreplies. rewrite launches_app in Hlaunches.
  cbn in Hreplies, Hlaunches. rewrite app_nil_r in Hreplies, Hlaunches.
  rewrite while_True_unfold.
  destruct stop as [[e later]|].
  - rewrite execute_recv_raises. by destruct (is_KeyboardInterrupt e).
  - by rewrite execute_waits.
Qed.

Lemma launch_in_launches (evs : list event) a c s :
  EvStartServer a c s ∈ evs → model s ∈ launches evs.
Proof.
  induction evs as [|ev evs IH]; intros Hin; [by apply elem_of_nil in Hin|].
  apply elem_of_cons in Hin as [<-|Hin].
  - cbn. apply elem_of_cons. by left.
  - unfold launches in *. cbn.
    destruct ev; cbn; try (by apply IH).
    apply elem_of_cons. right. by apply IH.
Qed.

(** Along the loop, every launch comes from a "server" message that was
    waiting in the connection. *)
Lemma loops_launches w o w' :
  loops conn_send_result start_server_result w o w' →
  ∀ a c s,
    EvStartServer a c s ∈ trace w' →
    EvStartServer a c s ∈ trace w
    ∨ (a = "0.0.0.0:8080" ∧ c = {| num_rounds := 10 |}
       ∧ ∃ msg, Received "server" msg ∈ inbox w
                ∧ s = set_model new_strategy (target_model msg)).
Proof.
  assert (∀ w w1 kind msg evs a c s,
            inbox w = Received kind msg :: inbox w1 →
            trace w1 = trace w ++ evs →
            launches evs = launches_for kind msg →
            launched_for evs msg →
            EvStartServer a c s ∈ trace w1 →
            EvStartServer a c s ∈ trace w
            ∨ (a = "0.0.0.0:8080" ∧ c = {| num_rounds := 10 |}
               ∧ ∃ msg, Received "server" msg ∈ inbox w
                        ∧ s = set_model new_strategy (target_model msg)))
    as Hpass.
  { clear w o w'. intros w w1 kind msg evs a c s Hin Htr Hl Hfor Hev.
    rewrite Htr in Hev. apply elem_of_app in Hev as [Hold|Hnew]; [by left|].
    right. destruct (Hfor a c s Hnew) as (-> & -> & ->).
    split_and!; [done..|]. exists msg. split; [|done].
    apply launch_in_launches in Hnew. rewrite Hl in Hnew.
    unfold launches_for in Hnew.
    destruct (decide (kind = "server")) as [->|_];
      [|by apply elem_of_nil in Hnew].
    rewrite Hin. apply elem_of_cons. by left. }
  induction 1 as [w w1 o w2 Hexec _ IH|w w1 Hexec|w e w1 Hexec He
                 |w w1 Hexec];
    pose proof (execute_step w) as Hstep; rewrite Hexec in Hstep;
    intros a c s Hev.
  - destruct Hstep as (kind & msg & evs & Hin & Htr & _ & Hl & Hfor).
    destruct (IH a c s Hev) as [Hold|(-> & -> & msg' & Hmsg' & ->)].
    + by apply (Hpass w w1 kind msg evs).
    + right. split_and!; [done..|]. exists msg'. split; [|done].
      rewrite Hin. apply elem_of_cons. by right.
  - destruct Hstep
      as [[_ Htr]
         |[(msg & evs & Hin & _ & Htr & _ & Hl & Hfor)
          |(kind & msg & evs & Hin & _ & Htr & _ & Hl & Hfor)]].
    + rewrite Htr in Hev. by left.
    + by apply (Hpass w w1 "server" msg evs).
    + by apply (Hpass w w1 kind msg evs).
  - destruct Hstep
      as [[_ Htr]
         |[(msg & evs & Hin & _ & Htr & _ & Hl & Hfor)
          |(kind & msg & evs & Hin & _ & Htr & _ & Hl & Hfor)]].
    + rewrite Htr in Hev. by left.
    + by apply (Hpass w w1 "server" msg evs).
    + by apply (Hpass w w1 kind msg evs).
  - destruct Hstep as [-> _]. by left.
Qed.

(** X11: every server [run] launches is launched on port 8080 for 10
    rounds, with the strategy [server] builds, for a "server" message
    that the connection held; the strategy's model is that message when
    the message is a model, and [None] otherwise.  No other message, and
    nothing else, makes [run] launch a server. *)
Theorem run_launches_only_for_server_messages w a c s :
  EvStartServer a c s ∈ trace (run conn_send_result start_server_result w).2 →
  EvStartServer a c s ∈ trace w
  ∨ (a = "0.0.0.0:8080" ∧ c = {| num_rounds := 10 |}
     ∧ ∃ msg,
         Received "server" msg ∈ inbox w
         ∧ model s = match msg with PyModel m => Some m | _ => None end
         ∧ s = {| fraction_fit := 1;
                  fraction_evaluate := 1;
                  min_fit_clients := 2;
                  min_evaluate_clients := 2;
                  min_available_clients := 2;
                  evaluate_fn := None;
                  on_fit_config_fn := Some fit_config;
                  accept_failures := true;
                  initial_parameters := None;
                  model := match msg with
                           | PyModel m => Some m
                           | _ => None
                           end |}).
Proof.
  intros Hev.
  destruct (loops_launches _ _ _ (run_loops w) a c s Hev)
    as [Hold|(-> & -> & msg & Hmsg & ->)].
  - left. unfold after in Hold. cbn [trace] in Hold.
    apply elem_of_app in Hold as [Hold|Hlog]; [done|]. members Hlog.
  - right. split_and!; [done..|]. by exists msg.
Qed.

End RunnerProperties.

(** * The properties on concrete runs *)

Import Example.

(** Two clients with 1 and 3 examples: the averages are
    (1*1 + 5*3)/4 = 4 and (2*1 + 10*3)/4 = 8. *)
Example aggregate_two_results :
  weights_results two_results ≫= aggregate = Ok [4; 8]%Q.
Proof. reflexivity. Qed.

(** The dispatcher scenario of the specification, then an interrupt
    while waiting for the next message. *)
Example run_scenario :
  let r := run send_ok server_ok
             {| inbox := [Received "ping" (PyStr "hello");
                          Received "server" PyNone;
                          Received "bogus" (PyInt 42);
                          RecvRaises KeyboardInterrupt;
                          Received "ping" PyNone];
                trace := [] |} in
  r.1 = Return ()
  ∧ inbox r.2 = [Received "ping" PyNone]
  ∧ replies (trace r.2) = ["pong"; "done"; "cannot understand"]
  ∧ launches (trace r.2) = [None].
Proof. vm_compute. done. Qed.

(** A peer that is gone: the send of "pong" raises, [run] raises it and
    the next command stays unread. *)
Example run_peer_gone :
  let gone := OtherException "BrokenPipeError" "Broken pipe" in
  let r := run (send_raises gone) server_ok
             {| inbox := [Received "ping" (PyStr "hello");
                          Received "server" PyNone];
                trace := [] |} in
  r.1 = Raise gone
  ∧ inbox r.2 = [Received "server" PyNone]
  ∧ launches (trace r.2) = [].
Proof. vm_compute. done. Qed.

(** Bytes of the second client that do not decode, and a tensor of the
    second client that is longer than the first client's: the call
    raises and nothing is saved. *)
Example aggregate_fit_malformed :
  @aggregate_fit Shaped.arrays (λ _, None) Shaped.strategy 1
    Shaped.malformed [] Shaped.quiet
  = (Raise (OtherException "ValueError"
              "buffer size must be a multiple of element size"),
     Shaped.quiet).
Proof. reflexivity. Qed.

Example aggregate_fit_mismatched :
  @aggregate_fit Shaped.arrays (λ _, None) Shaped.strategy 1
    Shaped.mismatched [] Shaped.quiet
  = (Raise (OtherException "ValueError"
              "operands could not be broadcast together"),
     Shaped.quiet).
Proof. reflexivity. Qed.

Example aggregate_fit_fitting :
  (@aggregate_fit Shaped.arrays (λ _, None) Shaped.strategy 1
     Shaped.fitting [] Shaped.quiet).1
  = Return (Some [Some [4; 8]%Q], ∅).
Proof. reflexivity. Qed.

(** C1 as stated fails: the save raises a [ValueError], and
    [aggregate_fit], called with non-empty results and no failures,
    raises it instead of returning. *)
Lemma aggregate_fit_raises_when_save_raises_other :
  two_results ≠ []
  ∧ (aggregate_fit (save_raises value_error)
       (strategy_with (Some model_file) true) 1 two_results [] quiet).1
    = Raise value_error.
Proof. split; [done|reflexivity]. Qed.

Lemma aggregate_fit_weighted_average_example :
  (aggregate_fit (save_raises bad_shape)
     (strategy_with (Some model_file) true) 1 two_results [] quiet).1
  = Return (Some [4; 8]%Q, ∅).
Proof.
  apply (aggregate_fit_weighted_average (save_raises bad_shape)
           (strategy_with (Some model_file) true) 1 two_results [] quiet
           [[1; 2]; [5; 10]]%Q [4; 8]%Q).
  - done.
  - by left.
  - repeat constructor.
  - intros [|[|k]]; reflexivity.
  - intros m e _ [= <-]. reflexivity.
Defined.

Lemma aggregate_fit_declines_example :
  let self := strategy_with (Some model_file) false in
  let failures := [inr value_error] in
  aggregate_fit (save_raises value_error) self 1 two_results failures quiet
  = (Return (None, ∅), quiet)
  ∧ persistence_calls
      (trace (aggregate_fit (save_raises value_error) self 1 two_results
                failures quiet).2)
    = persistence_calls (trace quiet).
Proof.
  apply (aggregate_fit_declines (save_raises value_error)
           (strategy_with (Some model_file) false) 1 two_results
           [inr value_error] quiet).
  right. split; [done|reflexivity].
Defined.

Lemma save_RuntimeError_is_logged_example :
  let self := strategy_with (Some model_file) true in
  let to_save := {| params := [4; 8]%Q; tflite_model := model_file |} in
  let saved := after quiet [EvModelParams to_save; EvSave to_save;
                            EvLog ERROR "bad shape"] in
  save_params (save_raises bad_shape) self [4; 8]%Q quiet = (Return (), saved)
  ∧ aggregate_fit (save_raises bad_shape) self 1 two_results [] quiet
    = (Return (Some [4; 8]%Q, ∅), saved)
  ∧ (aggregate_fit (λ _, None) self 1 two_results [] quiet).1
    = Return (Some [4; 8]%Q, ∅).
Proof.
  intros self to_save saved.
  destruct (save_RuntimeError_is_logged (save_raises bad_shape) self
              model_file [4; 8]%Q "bad shape" quiet eq_refl eq_refl)
    as [Hsave Hfit].
  split; [exact Hsave|].
  apply (Hfit 1 two_results []); [done|by left|reflexivity].
Defined.

Lemma save_other_exception_propagates_example :
  let self := strategy_with (Some model_file) true in
  let to_save := {| params := [4; 8]%Q; tflite_model := model_file |} in
  let raised := after quiet [EvModelParams to_save; EvSave to_save] in
  save_params (save_raises value_error) self [4; 8]%Q quiet
  = (Raise value_error, raised)
  ∧ aggregate_fit (save_raises value_error) self 1 two_results [] quiet
    = (Raise value_error, raised).
Proof.
  intros self to_save raised.
  destruct (save_other_exception_propagates (save_raises value_error) self
              model_file [4; 8]%Q value_error quiet eq_refl eq_refl eq_refl)
    as [Hsave Hfit].
  split; [exact Hsave|].
  apply (Hfit 1 two_results []); [done|by left|reflexivity].
Defined.

Lemma save_params_without_model_example :
  save_params (save_raises value_error) (strategy_with None true) [4; 8]%Q
    quiet
  = (Return (), quiet).
Proof.
  apply (save_params_without_model (save_raises value_error)
           (strategy_with None true) [4; 8]%Q quiet).
  reflexivity.
Defined.

(** C4 as stated fails: the server launch is interrupted, and [execute]
    raises without having sent a reply for the "server" message read. *)
Lemma execute_sends_nothing_when_launch_raises :
  let r := execute send_ok (server_raises KeyboardInterrupt)
             {| inbox := [Received "server" PyNone]; trace := [] |} in
  r.1 = Raise KeyboardInterrupt
  ∧ replies (trace r.2) = []
  ∧ launches (trace r.2) = [None].
Proof. vm_compute. done. Qed.

Lemma execute_replies_once_example :
  let r := execute send_ok server_ok
             {| inbox := [Received "server" (PyModel model_file)];
                trace := [] |} in
  r.1 = Return ()
  ∧ inbox r.2 = []
  ∧ replies (trace r.2) = ["done"]
  ∧ launches (trace r.2) = [Some model_file].
Proof.
  apply (execute_replies_once send_ok server_ok "server"
           (PyModel model_file) [] []).
  - reflexivity.
  - reflexivity.
Defined.

(** ** The further properties on concrete runs *)

Lemma aggregate_fit_saves_what_it_returns_example :
  let r := aggregate_fit (save_raises bad_shape)
             (strategy_with (Some model_file) true) 1 two_results [] quiet in
  ∃ calls,
    saves (trace r.2) = saves (trace quiet) ++ calls
    ∧ (calls = []
       ∨ ∃ to_save, calls = [to_save] ∧ tflite_model to_save = model_file)
    ∧ ∀ p metrics,
        r.1 = Return (p, metrics) →
        ∃ to_save,
          calls = [to_save]
          ∧ p = Some (ndarrays_to_parameters (params to_save))
          ∧ metrics = ∅.
Proof.
  apply (aggregate_fit_saves_what_it_returns (save_raises bad_shape)
           (strategy_with (Some model_file) true) model_file 1 two_results
           [] quiet).
  - done.
  - by left.
  - reflexivity.
Defined.

Lemma aggregate_fit_reads_only_example :
  aggregate_fit save_ok (strategy_with (Some model_file) false) 1
    two_results [inr value_error] quiet
  = aggregate_fit save_ok (strategy_with (Some model_file) false) 1
      two_results_renamed [inr bad_shape; inl ("x", fit_res [] 0)] quiet.
Proof.
  apply (aggregate_fit_reads_only save_ok
           (strategy_with (Some model_file) false) 1 two_results
           two_results_renamed [inr value_error]
           [inr bad_shape; inl ("x", fit_res [] 0)] quiet).
  - reflexivity.
  - split; intros H; discriminate H.
Defined.

Lemma aggregate_fit_raises_before_saving_example :
  ∃ msg,
    @aggregate_fit Shaped.arrays (λ _, None) Shaped.strategy 1
      Shaped.malformed [] Shaped.quiet
    = (Raise (OtherException "ValueError" msg), Shaped.quiet).
Proof.
  apply (@aggregate_fit_raises_before_saving Shaped.arrays (λ _, None)
           Shaped.strategy 1 Shaped.malformed [] Shaped.quiet []).
  - done.
  - by left.
  - left. apply Exists_cons_tl, Exists_cons_hd.
    exists "buffer size must be a multiple of element size". reflexivity.
Defined.


Lemma run_answers_in_order_example :
  let r := run send_ok server_ok
             {| inbox := [Received "ping" (PyStr "hello");
                          Received "server" PyNone;
                          Received "bogus" (PyInt 42);
                          RecvRaises KeyboardInterrupt;
                          Received "ping" PyNone];
                trace := [] |} in
  r.1 = Return ()
  ∧ inbox r.2 = [Received "ping" PyNone]
  ∧ replies (trace r.2) = ["pong"; "done"; "cannot understand"]
  ∧ launches (trace r.2) = [None].
Proof.
  apply (run_answers_in_order send_ok server_ok three_commands
           (Some (KeyboardInterrupt, [Received "ping" PyNone])) []).
  - intros a c s. reflexivity.
  - intros sent obj. reflexivity.
Defined.

Lemma run_launches_only_for_server_messages_example :
  let strategy :=
    {| fraction_fit := 1;
       fraction_evaluate := 1;
       min_fit_clients := 2;
       min_evaluate_clients := 2;
       min_available_clients := 2;
       evaluate_fn := None;
       on_fit_config_fn := Some fit_config;
       accept_failures := true;
       initial_parameters := None;
       model := Some model_file |} in
  let launch :=
    EvStartServer "0.0.0.0:8080" {| num_rounds := 10 |} strategy in
  launch ∈ trace (run send_ok server_ok one_launch).2
  ∧ (launch ∈ trace one_launch
     ∨ ("0.0.0.0:8080" = "0.0.0.0:8080"
        ∧ {| num_rounds := 10 |} = {| num_rounds := 10 |}
        ∧ ∃ msg,
            Received "server" msg ∈ inbox one_launch
            ∧ model strategy
              = match msg with PyModel m => Some m | _ => None end
            ∧ strategy
              = {| fraction_fit := 1;
                   fraction_evaluate := 1;
                   min_fit_clients := 2;
                   min_evaluate_clients := 2;
                   min_available_clients := 2;
                   evaluate_fn := None;
                   on_fit_config_fn := Some fit_config;
                   accept_failures := true;
                   initial_parameters := None;
                   model := match msg with
                            | PyModel m => Some m
                            | _ => None
                            end |})).
Proof.
  intros strategy launch.
  assert (launch ∈ trace (run send_ok server_ok one_launch).2) as Hlaunch.
  { apply (list_elem_of_lookup_2 _ 2%nat). reflexivity. }
  split; [exact Hlaunch|].
  apply (run_launches_only_for_server_messages send_ok server_ok one_launch
           "0.0.0.0:8080" {| num_rounds := 10 |} strategy Hlaunch).
Defined.
